(** * AFNS engine extension and GTK demo

    A shallow embedding of
    - [afns_flutter/afns_integration/engine/afns_engine.cc]: the class
      [AFNSEngineExtension], its two JNI entry points and the process-wide
      holder [g_afns_engine];
    - [examples/afns_gui_demo.c]: the 1024-byte result buffer and the six
      button callbacks.

    A [std::string] and a C character array are both modelled as a
    [String.string], that is a sequence of bytes ([ascii]); a string literal
    of this file denotes the bytes of its UTF-8 encoding, as in the C and C++
    sources.  A [size_t] position is a [nat]: every position the code
    computes is at most the length of a string held in memory. *)

From Stdlib Require Import String Ascii List Arith Bool Lia.
Import ListNotations.
Open Scope string_scope.

(** ** The [std::string] operations used by the engine *)

Module StdString.

(** [s.empty()] *)
Definition empty (s : string) : bool :=
  match s with
  | EmptyString => true
  | String _ _ => false
  end.

(** The first [n] bytes of [s] (all of [s] when it is shorter). *)
Fixpoint take (n : nat) (s : string) : string :=
  match n, s with
  | S n', String c s' => String c (take n' s')
  | _, _ => EmptyString
  end.

(** [s] without its first [n] bytes (empty when [s] is shorter). *)
Fixpoint drop (n : nat) (s : string) : string :=
  match n, s with
  | S n', String _ s' => drop n' s'
  | _, _ => s
  end.

(** [s.find(str, pos)]: the least position [p >= pos] at which [str]
    occurs in [s]; [None] stands for [std::string::npos]. *)
Definition find (s str : string) (pos : nat) : option nat :=
  index pos str s.

(** [s.replace(pos, len, str)], defined for [pos <= s.size()] (the call
    throws [std::out_of_range] otherwise): the bytes
    [pos .. pos + min(len, size - pos)) are replaced by [str]. *)
Definition replace (s : string) (pos len : nat) (str : string) : string :=
  take pos s ++ str ++ drop (pos + len) s.

(** The C string stored at the start of a byte sequence: the bytes before
    the first NUL.  This is what [std::string(const char* )], [c_str()]
    consumers and [strcpy] read. *)
Fixpoint c_str (s : string) : string :=
  match s with
  | EmptyString => EmptyString
  | String c s' =>
      if Ascii.eqb c zero then EmptyString else String c (c_str s')
  end.

End StdString.

(** ** [flutter::afns::AFNSEngineExtension] *)

Module Engine.
Import StdString.

(** The object's data members.  [afns_compiler_handle_] is never assigned
    and stays the null [unique_ptr]; it carries no information. *)
Record AFNSEngineExtension : Type := mkEngine {
  internal_afns_state_ : string
}.

(** The constructor. *)
Definition new_AFNSEngineExtension : AFNSEngineExtension :=
  mkEngine "AFNS_ENGINE_ACTIVE".

Definition ValidateAFNSCode (code : string) : bool :=
  negb (empty code) && Nat.ltb 0 (String.length code).

(** The [while] loop of [ProcessAFNSCode], on the loop state
    [(result, pos)].  [fuel] bounds the number of loop tests; [None] means
    that the bound was reached before the loop exited. *)
Fixpoint ProcessAFNSCode_loop (fuel : nat) (result : string) (pos : nat)
  : option string :=
  match fuel with
  | O => None
  | S fuel' =>
      match find result "fun " pos with
      | None => Some result
      | Some pos' =>
          ProcessAFNSCode_loop fuel'
            (replace result pos' 4 "Widget ") (pos' + 6)
      end
  end.

Definition ProcessAFNSCode (code : string) : option string :=
  ProcessAFNSCode_loop (S (String.length code)) code 0.

(** A member function returning [A]: it runs on the object and yields the
    returned value with the object's new contents, or [None] when the
    model of [ProcessAFNSCode] ran out of fuel. *)
Definition Method (A : Type) : Type :=
  AFNSEngineExtension -> option (A * AFNSEngineExtension).

Definition ret {A : Type} (a : A) : Method A :=
  fun this => Some (a, this).

Definition bind {A B : Type} (m : Method A) (k : A -> Method B)
  : Method B :=
  fun this =>
    match m this with
    | Some (a, this') => k a this'
    | None => None
    end.

Definition lift {A : Type} (o : option A) : Method A :=
  fun this =>
    match o with
    | Some a => Some (a, this)
    | None => None
    end.

Definition assign_state (s : string) : Method unit :=
  fun _ => Some (tt, mkEngine s).

Definition read_state : Method string :=
  fun this => Some (internal_afns_state_ this, this).

Notation "x <- m ;; k" := (bind m (fun x => k))
  (at level 61, m at next level, right associativity).
Notation "m ;;; k" := (bind m (fun _ => k))
  (at level 61, right associativity).

Definition CompileAFNSWidget (afns_code : string) : Method string :=
  if negb (ValidateAFNSCode afns_code) then
    ret "error: invalid_afns_code"
  else
    processed_code <- lift (ProcessAFNSCode afns_code) ;;
    ret ("Flutter Widget Generated from AFNS: " ++ processed_code).

Definition ExecuteAFNSLogic (afns_code : string) : Method string :=
  if negb (ValidateAFNSCode afns_code) then
    ret "error: invalid_afns_logic"
  else
    processed_code <- lift (ProcessAFNSCode afns_code) ;;
    assign_state ("EXECUTED: " ++ processed_code) ;;;
    ret processed_code.

Definition UpdateAFNSSState (state : string) : Method unit :=
  assign_state state.

Definition GetAFNSSState : Method string :=
  read_state.

(** [DartVMRef] is an opaque handle of the embedder; the engine never
    looks at it. *)
Definition DartVMRef : Type := nat.

(** The body of [InitializeAFNSEngine] holds comments only. *)
Definition InitializeAFNSEngine (vm_ref : DartVMRef) : Method unit :=
  ret tt.

(** The loop of [ProcessAFNSCode] as a relation:
    [loop_run result pos n out] holds when the loop, entered with the
    state [(result, pos)], exits after [n] executions of its body with
    [result = out].  Each body execution is one [replace] call, whose
    position must be in range. *)
Inductive loop_run : string -> nat -> nat -> string -> Prop :=
| loop_exit : forall result pos,
    find result "fun " pos = None ->
    loop_run result pos 0 result
| loop_body : forall result pos pos' n out,
    find result "fun " pos = Some pos' ->
    pos' <= String.length result ->
    loop_run (replace result pos' 4 "Widget ") (pos' + 6) n out ->
    loop_run result pos (S n) out.

End Engine.

(** ** The substitution in the words of the specification *)

Module Subst.
Import StdString.

(** The token occurs in [s] at position [i]. *)
Definition occurs_at (s : string) (i : nat) : bool :=
  prefix "fun " (drop i s).

(** The number of positions of [s] at which the token occurs. *)
Fixpoint occurrences (s : string) : nat :=
  match s with
  | EmptyString => 0
  | String _ s' => (if prefix "fun " s then 1 else 0) + occurrences s'
  end.

(** Left-to-right, non-overlapping replacement of the token: [s] is
    scanned once; [skip] is the number of bytes of an already replaced
    token still to be passed over.  At a position outside a replaced
    token, an occurrence of the token is replaced by ["Widget "] and any
    other byte is copied. *)
Fixpoint replace_from (skip : nat) (s : string) : string :=
  match s with
  | EmptyString => EmptyString
  | String c s' =>
      match skip with
      | S skip' => replace_from skip' s'
      | O =>
          if prefix "fun " s then "Widget " ++ replace_from 3 s'
          else String c (replace_from 0 s')
      end
  end.

Definition replace_all (s : string) : string := replace_from 0 s.

(** The number of replacements that scan makes. *)
Fixpoint replaced_from (skip : nat) (s : string) : nat :=
  match s with
  | EmptyString => 0
  | String _ s' =>
      match skip with
      | S skip' => replaced_from skip' s'
      | O =>
          if prefix "fun " s then S (replaced_from 3 s')
          else replaced_from 0 s'
      end
  end.

(** The byte [c] occurs in [s]. *)
Fixpoint mentions (c : ascii) (s : string) : bool :=
  match s with
  | EmptyString => false
  | String c' s' => Ascii.eqb c c' || mentions c s'
  end.

End Subst.

(** ** The JNI entry points and the process-wide engine holder *)

Module Jni.
Import StdString Engine.

(** The global of the anonymous namespace: [g_afns_engine], a
    [unique_ptr] that is null ([None]) or owns an engine. *)
Record Process : Type := mkProcess {
  g_afns_engine : option AFNSEngineExtension
}.

(** The state of a freshly loaded library. *)
Definition loaded : Process := mkProcess None.

Definition GetAFNSEngine (w : Process) : AFNSEngineExtension * Process :=
  match g_afns_engine w with
  | Some e => (e, w)
  | None =>
      (new_AFNSEngineExtension, mkProcess (Some new_AFNSEngineExtension))
  end.

(** A [jstring] argument is given by the bytes [GetStringUTFChars] hands
    out for it; [std::string(code)] reads them as a C string.
    [NewStringUTF(result.c_str())] reads the result as a C string. *)
Definition Java_io_flutter_plugin_afns_AFNSEngine_nativeCompileAFNSWidget
    (afns_code : string) (w : Process) : option (string * Process) :=
  let afns_engine := new_AFNSEngineExtension in
  let code := afns_code in
  match CompileAFNSWidget (c_str code) afns_engine with
  | Some (result, _) => Some (c_str result, w)
  | None => None
  end.

Definition Java_io_flutter_plugin_afns_AFNSEngine_nativeExecuteAFNSLogic
    (afns_code : string) (w : Process) : option (string * Process) :=
  let afns_engine := new_AFNSEngineExtension in
  let code := afns_code in
  match ExecuteAFNSLogic (c_str code) afns_engine with
  | Some (result, _) => Some (c_str result, w)
  | None => None
  end.

(** The platform hooks; each one exists on one platform only. *)
Definition JNI_OnLoad (w : Process) : Process := snd (GetAFNSEngine w).
Definition afns_linux_init (w : Process) : Process := snd (GetAFNSEngine w).
Definition afns_macos_init (w : Process) : Process := snd (GetAFNSEngine w).

Inductive Reason : Type :=
| DLL_PROCESS_ATTACH
| DLL_PROCESS_DETACH
| DLL_OTHER.

Definition DllMain (fdwReason : Reason) (w : Process) : Process :=
  match fdwReason with
  | DLL_PROCESS_ATTACH => snd (GetAFNSEngine w)
  | DLL_PROCESS_DETACH => mkProcess None
  | DLL_OTHER => w
  end.

(** A call through the exported symbols, and what it hands back. *)
Inductive Call : Type :=
| NativeCompile (afns_code : string)
| NativeExecute (afns_code : string)
| OnLoad
| LinuxInit
| MacosInit
| Dll (fdwReason : Reason).

Definition is_native (c : Call) : bool :=
  match c with
  | NativeCompile _ | NativeExecute _ => true
  | _ => false
  end.

(** The returned [jstring] of an entry point; the hooks return a
    constant, rendered as [None]. *)
Definition call (c : Call) (w : Process)
  : option (option string * Process) :=
  match c with
  | NativeCompile s =>
      match Java_io_flutter_plugin_afns_AFNSEngine_nativeCompileAFNSWidget
              s w with
      | Some (r, w') => Some (Some r, w')
      | None => None
      end
  | NativeExecute s =>
      match Java_io_flutter_plugin_afns_AFNSEngine_nativeExecuteAFNSLogic
              s w with
      | Some (r, w') => Some (Some r, w')
      | None => None
      end
  | OnLoad => Some (None, JNI_OnLoad w)
  | LinuxInit => Some (None, afns_linux_init w)
  | MacosInit => Some (None, afns_macos_init w)
  | Dll r => Some (None, DllMain r w)
  end.

(** A sequence of calls, oldest first; the replies in the same order. *)
Fixpoint calls (cs : list Call) (w : Process)
  : option (list (option string) * Process) :=
  match cs with
  | [] => Some ([], w)
  | c :: cs' =>
      match call c w with
      | Some (r, w') =>
          match calls cs' w' with
          | Some (rs, w'') => Some (r :: rs, w'')
          | None => None
          end
      | None => None
      end
  end.

End Jni.

(** ** The GTK demo *)

Module Demo.
Import StdString.

Definition nl : string := String "010"%char EmptyString.
Definition dq : string := String "034"%char EmptyString.

(** The string literals copied by the callbacks and by [main]. *)
Definition afns_init_text : string :=
  "🚀 AFNS Flutter Integration Initialized!" ++ nl ++ "Platform: Cross-platform Native" ++ nl ++ "Performance: Maximum Speed".

Definition afns_create_window_text : string :=
  "FlutterWindow(id::string = " ++ dq ++ "main" ++ dq ++ ", title::string = " ++ dq ++ "AFNS Professional Flutter Application" ++ dq ++ ", width::i32 = 1024, height::i32 = 768)".

Definition afns_create_button_text : string :=
  "FlutterButton(id::string = " ++ dq ++ "btn_save" ++ dq ++ ", text::string = " ++ dq ++ "Save Project" ++ dq ++ ", x::i32 = 50, y::i32 = 50)".

Definition afns_create_textfield_text : string :=
  "FlutterTextField(id::string = " ++ dq ++ "txt_project" ++ dq ++ ", placeholder::string = " ++ dq ++ "Project Name" ++ dq ++ ", x::i32 = 50, y::i32 = 100, width::i32 = 200)".

Definition afns_show_dialog_text : string :=
  "FlutterDialog(title::string = " ++ dq ++ "Success" ++ dq ++ ", message::string = " ++ dq ++ "AFNS GUI Application is working!" ++ dq ++ ", modal::bool = true)".

Definition afns_run_demo_text : string :=
  "🎨 AFNS GUI Demo Running!" ++ nl ++ "===========================" ++ nl ++ "✅ All Flutter components initialized" ++ nl ++ "✅ Cross-platform compatibility: 100%" ++ nl ++ "✅ Performance: Maximum speed" ++ nl ++ "✅ Professional GUI: Working!" ++ nl ++ nl ++ "💎 AFNS Language = Professional GUI Platform!".

Definition main_initial_text : string :=
  "🎨 AFNS GUI Application Ready!" ++ nl ++ nl ++ "Click buttons above to test AFNS Flutter functions..." ++ nl ++ nl ++ "✅ AFNS Compiler: Built successfully" ++ nl ++ "✅ Flutter Integration: Ready" ++ nl ++ "✅ Cross-platform: Linux/Windows/macOS/Android/iOS/Web" ++ nl ++ "✅ Professional GUI: Fully functional".

(** [sizeof afns_result_buffer] *)
Definition BUFFER_SIZE : nat := 1024.

Fixpoint zeros (n : nat) : string :=
  match n with
  | O => EmptyString
  | S n' => String zero (zeros n')
  end.

(** [strcpy(dest, src)] on an array holding the bytes [dest]: the bytes
    of the C string [src] and its terminating NUL overwrite the start of
    the array, the bytes after them stay.  [None] when the copy would
    write past the end of the array. *)
Definition strcpy (dest src : string) : option string :=
  let bytes := c_str src ++ String zero EmptyString in
  if Nat.leb (String.length bytes) (String.length dest) then
    Some (bytes ++ drop (String.length bytes) dest)
  else None.

(** The global array and the text held by the [GtkTextBuffer] the
    callbacks receive as [data]. *)
Record State : Type := mkState {
  afns_result_buffer : string;
  text_buffer : string
}.

(** [gtk_text_buffer_set_text(buffer, text, -1)]: the buffer's text
    becomes the NUL-terminated string at [text]. *)
Definition gtk_text_buffer_set_text (text : string) (st : State) : State :=
  mkState (afns_result_buffer st) (c_str text).

(** The common shape of the callbacks and of the initial text of [main]:
    [strcpy] into the global array, then show the array. *)
Definition show (literal : string) (st : State) : option State :=
  match strcpy (afns_result_buffer st) literal with
  | Some buf =>
      Some (gtk_text_buffer_set_text buf (mkState buf (text_buffer st)))
  | None => None
  end.

Definition afns_init_callback : State -> option State :=
  show afns_init_text.
Definition afns_create_window_callback : State -> option State :=
  show afns_create_window_text.
Definition afns_create_button_callback : State -> option State :=
  show afns_create_button_text.
Definition afns_create_textfield_callback : State -> option State :=
  show afns_create_textfield_text.
Definition afns_show_dialog_callback : State -> option State :=
  show afns_show_dialog_text.
Definition afns_run_demo_callback : State -> option State :=
  show afns_run_demo_text.

(** The six buttons of [main] and the handlers [g_signal_connect]
    attaches to their [clicked] signal. *)
Inductive Button : Type :=
| init_btn
| window_btn
| button_btn
| textfield_btn
| dialog_btn
| demo_btn.

Definition clicked (b : Button) : State -> option State :=
  match b with
  | init_btn => afns_init_callback
  | window_btn => afns_create_window_callback
  | button_btn => afns_create_button_callback
  | textfield_btn => afns_create_textfield_callback
  | dialog_btn => afns_show_dialog_callback
  | demo_btn => afns_run_demo_callback
  end.

(** The literal belonging to a button. *)
Definition button_text (b : Button) : string :=
  match b with
  | init_btn => afns_init_text
  | window_btn => afns_create_window_text
  | button_btn => afns_create_button_text
  | textfield_btn => afns_create_textfield_text
  | dialog_btn => afns_show_dialog_text
  | demo_btn => afns_run_demo_text
  end.

(** The state in which [main] starts: the global array is
    zero-initialised, the fresh text buffer is empty. *)
Definition startup : State := mkState (zeros BUFFER_SIZE) EmptyString.

(** [main] up to the start of the GTK main loop. *)
Definition main_setup : option State := show main_initial_text startup.

(** The source of every [strcpy] call of the program. *)
Definition strcpy_sources : list string :=
  [ afns_init_text; afns_create_window_text; afns_create_button_text;
    afns_create_textfield_text; afns_show_dialog_text; afns_run_demo_text;
    main_initial_text ].

End Demo.

(** ** Sequences of calls *)

Module Client.
Import StdString Engine Subst Jni Demo.

(** A call of a public member function of [AFNSEngineExtension]. *)
Inductive MethodCall : Type :=
| CallCompile (afns_code : string)
| CallExecute (afns_code : string)
| CallInitialize (vm_ref : DartVMRef)
| CallUpdate (state : string)
| CallGet.

(** The call on the object; a [void] function returns [None]. *)
Definition invoke (c : MethodCall) : Method (option string) :=
  match c with
  | CallCompile s => r <- CompileAFNSWidget s ;; ret (Some r)
  | CallExecute s => r <- ExecuteAFNSLogic s ;; ret (Some r)
  | CallInitialize v => InitializeAFNSEngine v ;;; ret None
  | CallUpdate s => UpdateAFNSSState s ;;; ret None
  | CallGet => r <- GetAFNSSState ;; ret (Some r)
  end.

(** The calls one after the other on the same object, oldest first. *)
Fixpoint invoke_all (cs : list MethodCall)
  : Method (list (option string)) :=
  match cs with
  | [] => ret []
  | c :: cs' =>
      r <- invoke c ;; rs <- invoke_all cs' ;; ret (r :: rs)
  end.

Definition is_update (c : MethodCall) : bool :=
  match c with
  | CallUpdate _ => true
  | _ => false
  end.

(** What a call stores in [internal_afns_state_], when it stores
    anything, in the words of the substitution. *)
Definition stored (c : MethodCall) : option string :=
  match c with
  | CallExecute s =>
      if empty s then None else Some ("EXECUTED: " ++ replace_all s)
  | CallUpdate s => Some s
  | _ => None
  end.

(** The state after the calls [cs] when it was [state] before: the last
    stored value. *)
Fixpoint last_stored (cs : list MethodCall) (state : string) : string :=
  match cs with
  | [] => state
  | c :: cs' =>
      last_stored cs'
        (match stored c with Some v => v | None => state end)
  end.

(** The states an object can have when [UpdateAFNSSState] is not used. *)
Definition engine_state_ok (state : string) : Prop :=
  state = "AFNS_ENGINE_ACTIVE"
  \/ exists t,
       state = "EXECUTED: " ++ t /\ t <> EmptyString /\ occurrences t = 0.

(** The holder is null or owns an engine in the constructor's state. *)
Definition holder_ok (w : Process) : Prop :=
  g_afns_engine w = None \/ g_afns_engine w = Some new_AFNSEngineExtension.

(** Clicks on the demo's buttons, oldest first. *)
Fixpoint clicks (bs : list Button) (st : State) : option State :=
  match bs with
  | [] => Some st
  | b :: bs' =>
      match clicked b st with
      | Some st' => clicks bs' st'
      | None => None
      end
  end.

End Client.

Import StdString Engine Subst.
Import Jni Demo.
Import Client.

Example process_fun_main :
  ProcessAFNSCode "fun main" = Some "Widget main".
Proof. reflexivity. Qed.

Example process_two :
  ProcessAFNSCode "fun fun ffun x fun" = Some "Widget Widget fWidget x fun".
Proof. reflexivity. Qed.

Example replace_all_two :
  replace_all "fun fun ffun x fun" = "Widget Widget fWidget x fun".
Proof. reflexivity. Qed.

Example literal_lengths :
  map String.length strcpy_sources = [101; 129; 95; 127; 114; 244; 252].
Proof. reflexivity. Qed.

Example main_setup_runs :
  option_map text_buffer main_setup = Some main_initial_text.
Proof. vm_compute. reflexivity. Qed.

(** ** Byte sequences *)

Section StringFacts.

Lemma length_app (a b : string) :
  String.length (a ++ b) = String.length a + String.length b.
Proof. induction a as [|c a IH]; simpl; [reflexivity | now rewrite IH]. Qed.

Lemma app_assoc (a b c : string) : (a ++ b) ++ c = a ++ b ++ c.
Proof. induction a as [|x a IH]; simpl; [reflexivity | now rewrite IH]. Qed.

Lemma app_empty_r (a : string) : a ++ EmptyString = a.
Proof. induction a as [|x a IH]; simpl; [reflexivity | now rewrite IH]. Qed.

Lemma take_app (a b : string) : take (String.length a) (a ++ b) = a.
Proof. induction a as [|x a IH]; simpl; [now destruct b | now rewrite IH]. Qed.

Lemma drop_app (a b : string) (k : nat) :
  drop (String.length a + k) (a ++ b) = drop k b.
Proof. induction a as [|x a IH]; simpl; [reflexivity | exact IH]. Qed.

Lemma drop_empty (k : nat) : drop k EmptyString = EmptyString.
Proof. now destruct k. Qed.

Lemma length_drop (k : nat) (s : string) :
  String.length (drop k s) = String.length s - k.
Proof.
  revert s; induction k as [|k IH]; intros [|c s]; simpl; auto.
Qed.

Lemma length_zeros (n : nat) : String.length (zeros n) = n.
Proof. induction n; simpl; congruence. Qed.

(** A prefix can be split off. *)
Lemma prefix_split (p s : string) :
  prefix p s = true -> s = p ++ drop (String.length p) s.
Proof.
  revert s; induction p as [|a p IH]; intros s H; simpl.
  - now destruct s.
  - destruct s as [|b s]; simpl in H; [discriminate|].
    destruct (ascii_dec a b) as [->|]; [|discriminate].
    now rewrite <- (IH s H).
Qed.

Lemma prefix_empty (s : string) : prefix EmptyString s = true.
Proof. now destruct s. Qed.

Lemma prefix_cons (a c : ascii) (p s : string) :
  prefix (String a p) (String c s) = Ascii.eqb a c && prefix p s.
Proof.
  cbn [prefix].
  destruct (ascii_dec a c) as [->|N].
  - now rewrite Ascii.eqb_refl.
  - apply Ascii.eqb_neq in N. now rewrite N.
Qed.

Lemma prefix_app (p s : string) : prefix p (p ++ s) = true.
Proof.
  induction p as [|a p IH]; simpl; [now destruct s|].
  destruct (ascii_dec a a); [exact IH | congruence].
Qed.

(** Replacing [len] bytes right after a known prefix. *)
Lemma replace_app (a old b str : string) :
  replace (a ++ old ++ b) (String.length a) (String.length old) str
  = a ++ str ++ b.
Proof.
  unfold replace.
  rewrite take_app, drop_app.
  replace (String.length old) with (String.length old + 0) by lia.
  now rewrite drop_app.
Qed.

(** [find] from the end of a known prefix searches the rest. *)
Lemma find_app (a s str : string) :
  find (a ++ s) str (String.length a)
  = option_map (fun q => String.length a + q) (find s str 0).
Proof.
  unfold find.
  induction a as [|x a IH]; simpl.
  - now destruct (index 0 str s).
  - rewrite IH. now destruct (index 0 str s).
Qed.

Lemma find_cons (c : ascii) (s str : string) :
  find (String c s) str 0
  = if prefix str (String c s) then Some 0
    else option_map S (find s str 0).
Proof.
  unfold find. cbn [index].
  destruct (prefix str (String c s)); [reflexivity|].
  now destruct (index 0 str s).
Qed.

Lemma c_str_id (s : string) : mentions zero s = false -> c_str s = s.
Proof.
  induction s as [|c s IH]; cbn [mentions c_str append]; [reflexivity|].
  intros H. apply orb_false_elim in H as [Hc Hs].
  rewrite Ascii.eqb_sym in Hc. rewrite Hc.
  now rewrite IH.
Qed.

Lemma c_str_terminated (s rest : string) :
  mentions zero s = false -> c_str (s ++ String zero rest) = s.
Proof.
  induction s as [|c s IH]; cbn [mentions c_str append]; [reflexivity|].
  intros H. apply orb_false_elim in H as [Hc Hs].
  rewrite Ascii.eqb_sym in Hc. rewrite Hc.
  now rewrite IH.
Qed.

Lemma c_str_no_zero (s : string) : mentions zero (c_str s) = false.
Proof.
  induction s as [|c s IH]; cbn [mentions c_str]; [reflexivity|].
  destruct (Ascii.eqb c zero) eqn:E; cbn [mentions]; [reflexivity|].
  now rewrite Ascii.eqb_sym, E.
Qed.

End StringFacts.

(** ** The scan of the specification *)

Section SubstFacts.

Lemma replace_from_drop (k : nat) (s : string) :
  replace_from k s = replace_from 0 (drop k s).
Proof.
  revert s; induction k as [|k IH]; intros s; [reflexivity|].
  destruct s as [|c s]; [reflexivity | exact (IH s)].
Qed.

Lemma replaced_from_drop (k : nat) (s : string) :
  replaced_from k s = replaced_from 0 (drop k s).
Proof.
  revert s; induction k as [|k IH]; intros s; [reflexivity|].
  destruct s as [|c s]; [reflexivity | exact (IH s)].
Qed.

(** The scan at an occurrence of the token. *)
Lemma replace_from_token (b : string) :
  replace_from 0 ("fun " ++ b) = "Widget " ++ replace_from 0 b.
Proof. now destruct b. Qed.

Lemma replaced_from_token (b : string) :
  replaced_from 0 ("fun " ++ b) = S (replaced_from 0 b).
Proof. now destruct b. Qed.

Lemma occurrences_token (b : string) :
  occurrences ("fun " ++ b) = S (occurrences b).
Proof. now destruct b. Qed.

(** The scan one byte after a replaced token: that byte is the blank of
    ["Widget "]. *)
Lemma replace_from_blank (b : string) :
  replace_from 0 (" " ++ b) = " " ++ replace_from 0 b.
Proof. reflexivity. Qed.

Lemma replaced_from_blank (b : string) :
  replaced_from 0 (" " ++ b) = replaced_from 0 b.
Proof. reflexivity. Qed.

(** When [find] reports no occurrence the scan copies its input. *)
Lemma find_none_scan (s : string) :
  find s "fun " 0 = None ->
  replace_from 0 s = s /\ replaced_from 0 s = 0 /\ occurrences s = 0.
Proof.
  induction s as [|c s IH]; intros H; [now repeat split|].
  rewrite find_cons in H.
  cbn [replace_from replaced_from occurrences].
  destruct (prefix "fun " (String c s)); [discriminate|].
  destruct (find s "fun " 0); [discriminate|].
  destruct (IH eq_refl) as (-> & -> & ->). now repeat split.
Qed.

(** When [find] reports the first occurrence, the input splits there and
    the scan copies the bytes before it. *)
Lemma find_some_scan (s : string) (q : nat) :
  find s "fun " 0 = Some q ->
  exists a b,
    s = a ++ "fun " ++ b /\ String.length a = q /\
    replace_from 0 s = a ++ "Widget " ++ replace_from 0 b /\
    replaced_from 0 s = S (replaced_from 0 b) /\
    occurrences s = S (occurrences b).
Proof.
  revert q; induction s as [|c s IH]; intros q H; [discriminate|].
  rewrite find_cons in H.
  destruct (prefix "fun " (String c s)) eqn:P.
  - injection H as <-.
    apply prefix_split in P. cbn [String.length] in P.
    remember (drop 4 (String c s)) as b eqn:Eb. clear Eb.
    exists EmptyString, b. rewrite P.
    rewrite replace_from_token, replaced_from_token, occurrences_token.
    now repeat split.
  - destruct (find s "fun " 0) as [q'|]; [|discriminate].
    injection H as <-.
    destruct (IH q' eq_refl) as (a & b & E & L & R & N & O).
    exists (String c a), b.
    cbn [replace_from replaced_from occurrences]. rewrite P.
    rewrite R, N, O, E at 1. cbn [String.length append]. rewrite L.
    now repeat split.
Qed.

End SubstFacts.

(** ** The loop of [ProcessAFNSCode] *)

Section LoopFacts.

(** One execution of the loop body: the state it produces when the first
    occurrence at or after the position lies [a] past the bytes [done]. *)
Lemma body_state (done a b : string) :
  replace (done ++ a ++ "fun " ++ b)
          (String.length done + String.length a) 4 "Widget "
  = (done ++ a ++ "Widget") ++ " " ++ b
  /\ String.length done + String.length a + 6
     = String.length (done ++ a ++ "Widget").
Proof.
  rewrite <- app_assoc, <- length_app.
  change 4 with (String.length "fun ").
  rewrite replace_app, !app_assoc, !length_app.
  split; [reflexivity | simpl; lia].
Qed.

(** Invariant of the loop: the bytes before [pos] are final, and the loop
    finishes the scan on the bytes from [pos] on.  Any fuel above the
    number of remaining bytes suffices. *)
Lemma loop_scans (fuel : nat) :
  forall rest done,
    String.length rest < fuel ->
    ProcessAFNSCode_loop fuel (done ++ rest) (String.length done)
    = Some (done ++ replace_from 0 rest).
Proof.
  induction fuel as [|fuel IH]; intros rest done Hf; [lia|].
  cbn [ProcessAFNSCode_loop]. rewrite find_app.
  destruct (find rest "fun " 0) as [q|] eqn:F; cbn [option_map].
  - destruct (find_some_scan _ _ F) as (a & b & -> & <- & R & _).
    destruct (body_state done a b) as [-> ->].
    rewrite IH.
    + rewrite R, replace_from_blank, !app_assoc. reflexivity.
    + rewrite !length_app in Hf. simpl in *. lia.
  - now destruct (find_none_scan _ F) as (-> & _).
Qed.

(** The same invariant for the loop as a relation, with the number of
    body executions. *)
Lemma loop_run_scans (n : nat) :
  forall rest done,
    String.length rest < n ->
    loop_run (done ++ rest) (String.length done)
             (replaced_from 0 rest) (done ++ replace_from 0 rest).
Proof.
  induction n as [|n IH]; intros rest done Hn; [lia|].
  destruct (find rest "fun " 0) as [q|] eqn:F.
  - destruct (find_some_scan _ _ F) as (a & b & E & L & R & N & _).
    subst rest q. rewrite R, N.
    apply loop_body with (pos' := String.length done + String.length a).
    + rewrite find_app, F. reflexivity.
    + rewrite !length_app. lia.
    + destruct (body_state done a b) as [-> ->].
      rewrite <- replaced_from_blank.
      replace (done ++ a ++ "Widget " ++ replace_from 0 b)
        with ((done ++ a ++ "Widget") ++ replace_from 0 (" " ++ b))
        by (rewrite replace_from_blank, !app_assoc; reflexivity).
      apply IH. rewrite !length_app in Hn. simpl in *. lia.
  - destruct (find_none_scan _ F) as (-> & -> & _).
    apply loop_exit. rewrite find_app, F. reflexivity.
Qed.

Lemma loop_run_deterministic (result : string) (pos n n' : nat)
      (out out' : string) :
  loop_run result pos n out -> loop_run result pos n' out' ->
  n = n' /\ out = out'.
Proof.
  intros H; revert n' out'.
  induction H as [r p F | r p p' n out F B H IH]; intros n' out' H'.
  - inversion H'; subst; [now split | congruence].
  - inversion H' as [| ? ? p'' m ? F' B' H'']; subst; [congruence|].
    rewrite F in F'. injection F' as <-.
    destruct (IH _ _ H'') as [-> ->]. now split.
Qed.

(** The scan makes one replacement per occurrence of the token. *)
Lemma replaced_occurrences (n : nat) :
  forall s, String.length s <= n -> replaced_from 0 s = occurrences s.
Proof.
  induction n as [|n IH]; intros s Hn.
  - destruct s; [reflexivity | simpl in Hn; lia].
  - destruct (find s "fun " 0) as [q|] eqn:F.
    + destruct (find_some_scan _ _ F) as (a & b & E & _ & _ & -> & ->).
      f_equal. apply IH. subst s. rewrite !length_app in Hn.
      simpl in Hn. lia.
    + now destruct (find_none_scan _ F) as (_ & -> & ->).
Qed.

Lemma ProcessAFNSCode_scans (code : string) :
  ProcessAFNSCode code = Some (replace_all code).
Proof.
  unfold ProcessAFNSCode, replace_all.
  apply (loop_scans (S (String.length code)) code EmptyString). lia.
Qed.

Lemma ProcessAFNSCode_run (code : string) :
  loop_run code 0 (occurrences code) (replace_all code).
Proof.
  rewrite <- (replaced_occurrences (String.length code) code (le_n _)).
  exact (loop_run_scans (S (String.length code)) code EmptyString
           (le_n _)).
Qed.

End LoopFacts.

(** ** What the scan's output can contain *)

Section OutputFacts.

(** A pattern without the byte [W] that starts the scan's output starts
    its input as well: the bytes the scan inserts begin with [W]. *)
Lemma prefix_replace_from (p : string) :
  forall s,
    mentions "W" p = false ->
    prefix p (replace_from 0 s) = true -> prefix p s = true.
Proof.
  induction p as [|a p IH]; intros s Hp H; [now destruct s|].
  cbn [mentions] in Hp. apply orb_false_elim in Hp as [Ha Hp].
  destruct s as [|c s]; [discriminate H|].
  cbn [replace_from] in H.
  destruct (prefix "fun " (String c s)).
  - simpl in H. destruct (ascii_dec a "W") as [->|]; discriminate.
  - simpl in H |- *. destruct (ascii_dec a c); [|discriminate].
    now apply IH.
Qed.

(** No occurrence of the token is left, whatever the scan passes over. *)
Lemma occurrences_replace_from (s : string) :
  forall k, occurrences (replace_from k s) = 0.
Proof.
  induction s as [|c s IH]; intros k; [now destruct k|].
  destruct k as [|k]; [|exact (IH k)].
  cbn [replace_from].
  destruct (prefix "fun " (String c s)) eqn:P.
  - simpl. exact (IH 3).
  - cbn [occurrences]. rewrite (IH 0).
    destruct (prefix "fun " (String c (replace_from 0 s))) eqn:Q;
      [|reflexivity].
    rewrite (prefix_replace_from "fun " (String c s) eq_refl) in P;
      [discriminate|].
    cbn [replace_from]. now rewrite P.
Qed.

(** An output without the byte [W] is the input itself. *)
Lemma replace_from_no_W (s : string) :
  mentions "W" (replace_from 0 s) = false -> replace_from 0 s = s.
Proof.
  induction s as [|c s IH]; [reflexivity|].
  cbn [replace_from].
  destruct (prefix "fun " (String c s)); [discriminate|].
  cbn [mentions]. intros H. apply orb_false_elim in H as [_ H].
  now rewrite IH.
Qed.

(** An input without occurrence is left as it is. *)
Lemma replace_from_no_occurrence (s : string) :
  occurrences s = 0 -> replace_from 0 s = s.
Proof.
  induction s as [|c s IH]; [reflexivity|].
  cbn [replace_from occurrences].
  destruct (prefix "fun " (String c s)); [discriminate|].
  intros H. now rewrite IH.
Qed.

Lemma occurrences_occurs_at (s : string) :
  occurrences s = 0 -> forall i, occurs_at s i = false.
Proof.
  unfold occurs_at.
  induction s as [|c s IH]; intros H i.
  - now rewrite drop_empty.
  - cbn [occurrences] in H.
    destruct (prefix "fun " (String c s)) eqn:P; [discriminate|].
    destruct i as [|i]; [exact P | exact (IH H i)].
Qed.

Lemma occurs_at_occurrences (s : string) :
  (forall i, occurs_at s i = false) -> occurrences s = 0.
Proof.
  unfold occurs_at.
  induction s as [|c s IH]; intros H; [reflexivity|].
  cbn [occurrences]. rewrite (H 0 : prefix _ (String c s) = false).
  apply IH. intros i. exact (H (S i)).
Qed.

Lemma occurrences_find (s : string) :
  occurrences s = 0 -> forall pos, find s "fun " pos = None.
Proof.
  unfold find.
  induction s as [|c s IH]; intros H pos; [now destruct pos|].
  cbn [occurrences] in H.
  destruct (prefix "fun " (String c s)) eqn:P; [discriminate|].
  destruct pos as [|pos]; cbn [index].
  - now rewrite P, (IH H 0).
  - now rewrite (IH H pos).
Qed.

Lemma ValidateAFNSCode_nonempty (code : string) :
  ValidateAFNSCode code = true <-> code <> EmptyString.
Proof.
  destruct code; cbn; split; congruence.
Qed.

Lemma occurrences_nonempty (code : string) :
  1 <= occurrences code -> code <> EmptyString.
Proof. destruct code; simpl; [lia | discriminate]. Qed.

End OutputFacts.

(** ** The scan on a text cut at its occurrences *)

Section SplitFacts.

(** The token has no border: an occurrence cannot begin in the bytes
    before a token and end inside that token. *)
Lemma no_straddle (c : ascii) (a b : string) :
  prefix "fun " (String c a) = false ->
  prefix "fun " (String c a ++ "fun " ++ b) = false.
Proof.
  intros H.
  destruct a as [|c2 [|c3 [|c4 a]]]; cbn [append] in *;
    rewrite ?prefix_cons, ?prefix_empty in *; [| | |exact H];
    repeat match goal with
           | |- context [Ascii.eqb ?x ?y] =>
               is_var y; destruct (Ascii.eqb x y)
           end; reflexivity.
Qed.

Lemma scan_split (a b : string) :
  occurrences a = 0 ->
  replace_from 0 (a ++ "fun " ++ b) = a ++ "Widget " ++ replace_from 0 b
  /\ occurrences (a ++ "fun " ++ b) = S (occurrences b).
Proof.
  induction a as [|c a IH]; intros H.
  - split; [apply replace_from_token | apply occurrences_token].
  - cbn [occurrences] in H.
    destruct (prefix "fun " (String c a)) eqn:P; [discriminate|].
    destruct (IH H) as [R O].
    pose proof (no_straddle c a b P) as Q.
    change (String c a ++ "fun " ++ b)
      with (String c (a ++ "fun " ++ b)) in *.
    cbn [replace_from occurrences].
    rewrite Q, R, O. now split.
Qed.

(** Joining texts free of the token with the token, then scanning, joins
    them with ["Widget "]; the occurrences are the joints. *)
Lemma scan_concat (parts : list string) :
  Forall (fun p => occurrences p = 0) parts ->
  replace_all (String.concat "fun " parts) = String.concat "Widget " parts
  /\ occurrences (String.concat "fun " parts) = pred (List.length parts).
Proof.
  unfold replace_all.
  induction 1 as [|p parts Hp Hparts IH]; [now split|].
  destruct parts as [|p' parts].
  - split; [now apply replace_from_no_occurrence | exact Hp].
  - destruct IH as [R O].
    cbn [String.concat] in R, O |- *.
    destruct (scan_split p (String.concat "fun " (p' :: parts)) Hp) as [R' O'].
    cbn [String.concat] in R', O'. rewrite R', O', R, O. now split.
Qed.

(** Every text is such a join. *)
Lemma split_exists (n : nat) :
  forall s, String.length s < n ->
    exists parts,
      s = String.concat "fun " parts /\ parts <> [] /\
      Forall (fun p => occurrences p = 0) parts.
Proof.
  induction n as [|n IH]; intros s Hn; [lia|].
  destruct (find s "fun " 0) as [q|] eqn:F.
  - destruct (find_some_scan _ _ F) as (a & b & E & L & _).
    destruct (IH b) as (parts & Eb & Ne & Hall).
    { subst s. rewrite !length_app in Hn. simpl in Hn. lia. }
    exists (a :: parts). repeat split; [|discriminate|].
    + destruct parts as [|p parts]; [congruence|].
      cbn [String.concat]. cbn [String.concat] in Eb. now rewrite <- Eb.
    + constructor; [|exact Hall].
      subst s q. clear - F.
      induction a as [|c a IHa]; [reflexivity|].
      change (String c a ++ "fun " ++ b)
        with (String c (a ++ "fun " ++ b)) in F.
      rewrite find_cons in F.
      destruct (prefix "fun " (String c (a ++ "fun " ++ b))) eqn:P;
        [discriminate|].
      cbn [occurrences String.length] in *.
      destruct (find (a ++ "fun " ++ b) "fun " 0) as [q|];
        [|discriminate].
      injection F as ->.
      rewrite (IHa eq_refl).
      destruct (prefix "fun " (String c a)) eqn:Q; [|reflexivity].
      apply prefix_split in Q. cbn [String.length] in Q.
      change (String c (a ++ "fun " ++ b))
        with (String c a ++ "fun " ++ b) in P.
      rewrite Q, app_assoc in P.
      now rewrite prefix_app in P.
  - exists [s]. repeat split; [discriminate|].
    constructor; [|constructor].
    now destruct (find_none_scan _ F) as (_ & _ & ->).
Qed.

End SplitFacts.

(** ** The member functions *)

Section MethodFacts.

Lemma CompileAFNSWidget_nonempty (code : string)
      (this : AFNSEngineExtension) :
  code <> EmptyString ->
  CompileAFNSWidget code this
  = Some ("Flutter Widget Generated from AFNS: " ++ replace_all code, this).
Proof.
  intros H. apply ValidateAFNSCode_nonempty in H.
  unfold CompileAFNSWidget, bind, lift.
  now rewrite H, ProcessAFNSCode_scans.
Qed.

Lemma ExecuteAFNSLogic_nonempty (code : string)
      (this : AFNSEngineExtension) :
  code <> EmptyString ->
  ExecuteAFNSLogic code this
  = Some (replace_all code, mkEngine ("EXECUTED: " ++ replace_all code)).
Proof.
  intros H. apply ValidateAFNSCode_nonempty in H.
  unfold ExecuteAFNSLogic, bind, lift.
  now rewrite H, ProcessAFNSCode_scans.
Qed.

Lemma CompileAFNSWidget_empty (this : AFNSEngineExtension) :
  CompileAFNSWidget EmptyString this
  = Some ("error: invalid_afns_code", this).
Proof. reflexivity. Qed.

Lemma ExecuteAFNSLogic_empty (this : AFNSEngineExtension) :
  ExecuteAFNSLogic EmptyString this
  = Some ("error: invalid_afns_logic", this).
Proof. reflexivity. Qed.

(** The two error sentinels are different strings. *)
Lemma sentinels_differ :
  "error: invalid_afns_code" <> "error: invalid_afns_logic".
Proof. discriminate. Qed.

End MethodFacts.

(** ** Properties of the engine *)

(** C1. On an input with at least one occurrence of the token ["fun "],
    [ProcessAFNSCode] returns the input with every occurrence replaced by
    ["Widget "], left to right and without overlap, and nothing else
    changed; the loop body runs once per occurrence.  The input is the join
    by ["fun "] of texts free of the token, the output is the join of the
    same texts by ["Widget "].  [CompileAFNSWidget] and [ExecuteAFNSLogic]
    return that output, the former behind its fixed prefix. *)
Theorem replaces_every_occurrence (code : string) :
  1 <= occurrences code ->
  ProcessAFNSCode code = Some (replace_all code)
  /\ (forall n out,
        loop_run code 0 n out <->
        n = occurrences code /\ out = replace_all code)
  /\ (exists parts,
        code = String.concat "fun " parts
        /\ Forall (fun p => occurrences p = 0) parts
        /\ replace_all code = String.concat "Widget " parts
        /\ List.length parts = S (occurrences code))
  /\ (forall this,
        CompileAFNSWidget code this
        = Some ("Flutter Widget Generated from AFNS: " ++ replace_all code,
                this)
        /\ ExecuteAFNSLogic code this
           = Some (replace_all code,
                   mkEngine ("EXECUTED: " ++ replace_all code))).
Proof.
  intros H. pose proof (occurrences_nonempty code H) as Hne.
  split; [apply ProcessAFNSCode_scans|].
  split; [|split].
  - intros n out; split.
    + intros R.
      exact (loop_run_deterministic _ _ _ _ _ _ R (ProcessAFNSCode_run code)).
    + intros [-> ->]. apply ProcessAFNSCode_run.
  - destruct (split_exists (S (String.length code)) code (le_n _))
      as (parts & E & Ne & Hall).
    destruct (scan_concat parts Hall) as [R O]. rewrite <- E in R, O.
    exists parts. repeat split; try assumption.
    destruct parts; [congruence | simpl in *; lia].
  - intros this. split.
    + now apply CompileAFNSWidget_nonempty.
    + now apply ExecuteAFNSLogic_nonempty.
Qed.

Lemma replaces_every_occurrence_witness :
  1 <= occurrences "fun main() { fun f }"
  /\ ProcessAFNSCode "fun main() { fun f }"
     = Some (replace_all "fun main() { fun f }").
Proof.
  assert (H : 1 <= occurrences "fun main() { fun f }")
    by (vm_compute; repeat constructor).
  split; [exact H|].
  exact (proj1 (replaces_every_occurrence "fun main() { fun f }" H)).
Defined.

(** C2. On the empty input [CompileAFNSWidget] and [ExecuteAFNSLogic] each
    return their fixed error sentinel and leave the object, hence
    [internal_afns_state_], as it was. *)
Theorem empty_input_rejected (this : AFNSEngineExtension) :
  CompileAFNSWidget EmptyString this
  = Some ("error: invalid_afns_code", this)
  /\ ExecuteAFNSLogic EmptyString this
     = Some ("error: invalid_afns_logic", this)
  /\ (forall r this',
        CompileAFNSWidget EmptyString this = Some (r, this') \/
        ExecuteAFNSLogic EmptyString this = Some (r, this') ->
        internal_afns_state_ this' = internal_afns_state_ this).
Proof.
  split; [reflexivity|]. split; [reflexivity|].
  intros r this' [H|H]; cbn in H; now injection H as _ <-.
Qed.

(** C3. A successful [ExecuteAFNSLogic] on a non-empty input [X] returns
    the substituted form of [X]; a [GetAFNSSState] after it returns
    ["EXECUTED: "] followed by the substituted form of [X].  For
    ["fun main"] these are ["Widget main"] and ["EXECUTED: Widget main"]. *)
Theorem execute_then_read_state (X : string) (this : AFNSEngineExtension) :
  X <> EmptyString ->
  ProcessAFNSCode X = Some (replace_all X)
  /\ (r <- ExecuteAFNSLogic X ;; s <- GetAFNSSState ;; ret (r, s)) this
     = Some ((replace_all X, "EXECUTED: " ++ replace_all X),
             mkEngine ("EXECUTED: " ++ replace_all X))
  /\ (r <- ExecuteAFNSLogic "fun main" ;; s <- GetAFNSSState ;; ret (r, s))
       this
     = Some (("Widget main", "EXECUTED: Widget main"),
             mkEngine "EXECUTED: Widget main").
Proof.
  intros H. split; [apply ProcessAFNSCode_scans|]. split.
  - unfold bind at 1. now rewrite (ExecuteAFNSLogic_nonempty X this H).
  - reflexivity.
Qed.

Lemma execute_then_read_state_witness :
  "fun main" <> EmptyString
  /\ (r <- ExecuteAFNSLogic "fun main" ;; s <- GetAFNSSState ;; ret (r, s))
       new_AFNSEngineExtension
     = Some ((replace_all "fun main", "EXECUTED: " ++ replace_all "fun main"),
             mkEngine ("EXECUTED: " ++ replace_all "fun main")).
Proof.
  assert (H : "fun main" <> EmptyString) by discriminate.
  split; [exact H|].
  exact (proj1 (proj2
    (execute_then_read_state "fun main" new_AFNSEngineExtension H))).
Defined.

(** C4, as stated, fails for [ExecuteAFNSLogic]: the error is signalled in
    the returned string, and the non-empty input
    ["error: invalid_afns_logic"] passes validation, holds no token and is
    returned as it is, which is the error sentinel.  So it is not the case
    that the sentinel is returned exactly on the empty input. *)
Lemma execute_sentinel_on_nonempty_input :
  "error: invalid_afns_logic" <> EmptyString
  /\ ValidateAFNSCode "error: invalid_afns_logic" = true
  /\ ExecuteAFNSLogic "error: invalid_afns_logic" new_AFNSEngineExtension
     = Some ("error: invalid_afns_logic",
             mkEngine "EXECUTED: error: invalid_afns_logic")
  /\ ExecuteAFNSLogic EmptyString new_AFNSEngineExtension
     = Some ("error: invalid_afns_logic", new_AFNSEngineExtension)
  /\ ~ (forall code this,
          (exists this',
             ExecuteAFNSLogic code this
             = Some ("error: invalid_afns_logic", this'))
          <-> code = EmptyString).
Proof.
  split; [discriminate|]. do 3 (split; [reflexivity|]).
  intros H.
  destruct (H "error: invalid_afns_logic" new_AFNSEngineExtension) as [H1 _].
  discriminate H1.
  exists (mkEngine "EXECUTED: error: invalid_afns_logic"). reflexivity.
Qed.

(** C4, amended.  [ValidateAFNSCode] accepts exactly the non-empty strings.
    [CompileAFNSWidget] returns its error sentinel if and only if the input
    is empty.  [ExecuteAFNSLogic] returns its error sentinel if and only if
    the input is empty or is the sentinel string itself. *)
Theorem error_results_characterised (code : string)
        (this : AFNSEngineExtension) :
  (ValidateAFNSCode code = true <-> code <> EmptyString)
  /\ ((exists this',
         CompileAFNSWidget code this
         = Some ("error: invalid_afns_code", this'))
      <-> code = EmptyString)
  /\ ((exists this',
         ExecuteAFNSLogic code this
         = Some ("error: invalid_afns_logic", this'))
      <-> code = EmptyString \/ code = "error: invalid_afns_logic").
Proof.
  split; [apply ValidateAFNSCode_nonempty|].
  destruct (string_dec code EmptyString) as [->|Hne].
  - split; split; intros _; auto; now exists this.
  - rewrite (CompileAFNSWidget_nonempty code this Hne).
    rewrite (ExecuteAFNSLogic_nonempty code this Hne).
    split; split.
    + intros [this' H]. discriminate H.
    + intros H. contradiction.
    + intros [this' H]. right.
      injection H as H _. unfold replace_all in H.
      rewrite <- (replace_from_no_W code); [exact H|].
      now rewrite H.
    + intros [H| ->]; [contradiction|].
      eexists. reflexivity.
Qed.

(** C5. On a non-empty input without occurrence of the token,
    [ExecuteAFNSLogic] returns the input as it is and
    [CompileAFNSWidget] returns it behind the fixed prefix. *)
Theorem no_occurrence_unchanged (code : string)
        (this : AFNSEngineExtension) :
  code <> EmptyString ->
  occurrences code = 0 ->
  ProcessAFNSCode code = Some code
  /\ (exists this', ExecuteAFNSLogic code this = Some (code, this'))
  /\ CompileAFNSWidget code this
     = Some ("Flutter Widget Generated from AFNS: " ++ code, this).
Proof.
  intros Hne H0.
  pose proof (replace_from_no_occurrence code H0) as E.
  fold (replace_all code) in E.
  rewrite ProcessAFNSCode_scans, (ExecuteAFNSLogic_nonempty code this Hne),
    (CompileAFNSWidget_nonempty code this Hne), E.
  repeat split. eexists. reflexivity.
Qed.

Lemma no_occurrence_unchanged_witness :
  "funny Fun main" <> EmptyString
  /\ occurrences "funny Fun main" = 0
  /\ CompileAFNSWidget "funny Fun main" new_AFNSEngineExtension
     = Some ("Flutter Widget Generated from AFNS: " ++ "funny Fun main",
             new_AFNSEngineExtension).
Proof.
  assert (Hne : "funny Fun main" <> EmptyString) by discriminate.
  assert (H0 : occurrences "funny Fun main" = 0) by reflexivity.
  split; [exact Hne|]. split; [exact H0|].
  exact (proj2 (proj2
    (no_occurrence_unchanged "funny Fun main" new_AFNSEngineExtension
       Hne H0))).
Defined.

(** C6. [UpdateAFNSSState s] replaces the state by [s], whatever it was,
    and a [GetAFNSSState] after it returns [s] and changes nothing. *)
Theorem set_then_get (s : string) (this : AFNSEngineExtension) :
  UpdateAFNSSState s this = Some (tt, mkEngine s)
  /\ GetAFNSSState (mkEngine s) = Some (s, mkEngine s)
  /\ (UpdateAFNSSState s ;;; GetAFNSSState) this = Some (s, mkEngine s).
Proof. repeat split. Qed.

(** C9. The output of [ProcessAFNSCode] holds no occurrence of the token
    ["fun "]: it exists for every input, the token occurs at none of its
    positions, and a search for it from any position finds nothing. *)
Theorem output_has_no_token (code : string) :
  exists out,
    ProcessAFNSCode code = Some out
    /\ occurrences out = 0
    /\ (forall i, occurs_at out i = false)
    /\ (forall pos, find out "fun " pos = None).
Proof.
  exists (replace_all code).
  pose proof (occurrences_replace_from code 0) as H.
  split; [apply ProcessAFNSCode_scans|]. split; [exact H|]. split.
  - now apply occurrences_occurs_at.
  - now apply occurrences_find.
Qed.

(** ** The exported entry points *)

Section JniFacts.

Lemma nativeCompile_reply (s : string) :
  exists r, forall w,
    Java_io_flutter_plugin_afns_AFNSEngine_nativeCompileAFNSWidget s w
    = Some (r, w).
Proof.
  unfold Java_io_flutter_plugin_afns_AFNSEngine_nativeCompileAFNSWidget.
  destruct (string_dec (c_str s) EmptyString) as [->|Hne].
  - rewrite CompileAFNSWidget_empty. eexists. reflexivity.
  - rewrite (CompileAFNSWidget_nonempty _ _ Hne). eexists. reflexivity.
Qed.

Lemma nativeExecute_reply (s : string) :
  exists r, forall w,
    Java_io_flutter_plugin_afns_AFNSEngine_nativeExecuteAFNSLogic s w
    = Some (r, w).
Proof.
  unfold Java_io_flutter_plugin_afns_AFNSEngine_nativeExecuteAFNSLogic.
  destruct (string_dec (c_str s) EmptyString) as [->|Hne].
  - rewrite ExecuteAFNSLogic_empty. eexists. reflexivity.
  - rewrite (ExecuteAFNSLogic_nonempty _ _ Hne). eexists. reflexivity.
Qed.

Lemma native_call_reply (c : Call) :
  is_native c = true ->
  exists r, forall w, call c w = Some (Some r, w).
Proof.
  destruct c as [s|s| | | |]; try discriminate; intros _; cbn [call].
  - destruct (nativeCompile_reply s) as [r H].
    exists r. intros w. now rewrite H.
  - destruct (nativeExecute_reply s) as [r H].
    exists r. intros w. now rewrite H.
Qed.

Lemma call_total (c : Call) (w : Process) :
  exists r w', call c w = Some (r, w').
Proof.
  destruct c as [s|s| | | |]; cbn [call]; try (now eexists; eexists).
  - destruct (nativeCompile_reply s) as [r H].
    rewrite H. now eexists; eexists.
  - destruct (nativeExecute_reply s) as [r H].
    rewrite H. now eexists; eexists.
Qed.

Lemma calls_total (cs : list Call) :
  forall w, exists rs w', calls cs w = Some (rs, w').
Proof.
  induction cs as [|c cs IH]; intros w; cbn [calls].
  - now eexists; eexists.
  - destruct (call_total c w) as (r & w1 & ->).
    destruct (IH w1) as (rs & w2 & ->). now eexists; eexists.
Qed.

Lemma calls_snoc (cs : list Call) (c : Call) :
  forall w rs w1 r w2,
    calls cs w = Some (rs, w1) -> call c w1 = Some (r, w2) ->
    calls (cs ++ [c])%list w = Some ((rs ++ [r])%list, w2).
Proof.
  induction cs as [|c0 cs IH]; intros w rs w1 r w2 H1 H2.
  - injection H1 as <- <-. cbn. now rewrite H2.
  - cbn [calls app] in H1 |- *.
    destruct (call c0 w) as [[r0 w0]|]; [|discriminate].
    destruct (calls cs w0) as [[rs0 w3]|] eqn:E; [|discriminate].
    injection H1 as <- <-.
    now rewrite (IH _ _ _ _ _ E H2).
Qed.

End JniFacts.

(** C8. The two JNI entry points are stateless.  Each returns a result
    fixed by its argument alone, whatever [g_afns_engine] holds, and
    leaves [g_afns_engine] as it was; so equal arguments give equal
    results.  After any sequence of earlier calls through the exported
    symbols, an entry point answers as it does in a freshly loaded
    library: the state written by an earlier [ExecuteAFNSLogic] is not
    seen. *)
Theorem jni_entry_points_stateless :
  (forall s, exists r, forall w,
     Java_io_flutter_plugin_afns_AFNSEngine_nativeCompileAFNSWidget s w
     = Some (r, w))
  /\ (forall s, exists r, forall w,
        Java_io_flutter_plugin_afns_AFNSEngine_nativeExecuteAFNSLogic s w
        = Some (r, w))
  /\ (forall earlier c w,
        is_native c = true ->
        exists r rs w',
          call c loaded = Some (Some r, loaded)
          /\ calls (earlier ++ [c])%list w = Some ((rs ++ [Some r])%list, w')
          /\ calls earlier w = Some (rs, w')).
Proof.
  split; [exact nativeCompile_reply|]. split; [exact nativeExecute_reply|].
  intros earlier c w Hc.
  destruct (native_call_reply c Hc) as [r Hr].
  destruct (calls_total earlier w) as (rs & w' & E).
  exists r, rs, w'. split; [apply Hr|]. split; [|exact E].
  exact (calls_snoc earlier c w rs w' (Some r) w' E (Hr w')).
Qed.

Lemma jni_entry_points_stateless_witness :
  is_native (NativeExecute "fun a") = true
  /\ exists r rs w',
       call (NativeExecute "fun a") loaded = Some (Some r, loaded)
       /\ calls ([NativeExecute "fun b"; OnLoad; NativeCompile "x"]
                   ++ [NativeExecute "fun a"])%list loaded
          = Some ((rs ++ [Some r])%list, w')
       /\ calls [NativeExecute "fun b"; OnLoad; NativeCompile "x"] loaded
          = Some (rs, w').
Proof.
  split; [reflexivity|].
  exact (proj2 (proj2 jni_entry_points_stateless)
           [NativeExecute "fun b"; OnLoad; NativeCompile "x"]
           (NativeExecute "fun a") loaded eq_refl).
Defined.

(** ** The demo's buffer *)

Section DemoFacts.

Lemma drop_terminated (s rest : string) :
  drop (String.length s + 1) (s ++ String zero rest) = rest.
Proof.
  induction s as [|c s IH]; [reflexivity | exact IH].
Qed.

Lemma length_terminated (s dest : string) :
  String.length s + 1 <= String.length dest ->
  String.length (s ++ String zero (drop (String.length s + 1) dest))
  = String.length dest.
Proof.
  intros H. rewrite length_app. cbn [String.length].
  rewrite length_drop. lia.
Qed.

(** A literal without NUL that fits is copied with its terminator; the
    bytes of the array after the terminator stay. *)
Lemma strcpy_fits (dest src : string) :
  mentions zero src = false ->
  String.length src + 1 <= String.length dest ->
  strcpy dest src
  = Some (src ++ String zero (drop (String.length src + 1) dest)).
Proof.
  intros Hz Hlen. unfold strcpy.
  rewrite (c_str_id src Hz), length_app. cbn [String.length].
  apply Nat.leb_le in Hlen. rewrite Hlen.
  now rewrite app_assoc.
Qed.

Lemma show_fits (literal : string) (st : State) :
  mentions zero literal = false ->
  String.length literal + 1 <= String.length (afns_result_buffer st) ->
  show literal st
  = Some (mkState
            (literal ++ String zero
               (drop (String.length literal + 1) (afns_result_buffer st)))
            literal).
Proof.
  intros Hz Hlen. unfold show, gtk_text_buffer_set_text.
  rewrite (strcpy_fits _ _ Hz Hlen). cbn [afns_result_buffer].
  now rewrite (c_str_terminated _ _ Hz).
Qed.

Lemma sources_no_zero :
  Forall (fun src => mentions zero src = false) strcpy_sources.
Proof. repeat constructor. Qed.

Lemma sources_fit :
  Forall (fun src => String.length src + 1 <= BUFFER_SIZE) strcpy_sources.
Proof.
  repeat constructor; apply Nat.leb_le; vm_compute; reflexivity.
Qed.

Lemma button_text_source (b : Button) : In (button_text b) strcpy_sources.
Proof. destruct b; simpl; auto 10. Qed.

Lemma clicked_show (b : Button) : clicked b = show (button_text b).
Proof. now destruct b. Qed.

End DemoFacts.

(** C7. A click on any of the six buttons, whatever the 1024-byte array
    held before, leaves in the array exactly the C string of that button's
    literal and shows exactly that literal.  A second click of the same
    button changes nothing, and the outcome does not depend on the earlier
    contents. *)
Theorem click_overwrites (b : Button) (st : State) :
  String.length (afns_result_buffer st) = BUFFER_SIZE ->
  exists st',
    clicked b st = Some st'
    /\ c_str (afns_result_buffer st') = button_text b
    /\ text_buffer st' = button_text b
    /\ String.length (afns_result_buffer st') = BUFFER_SIZE
    /\ clicked b st' = Some st'
    /\ (forall other,
          String.length (afns_result_buffer other) = BUFFER_SIZE ->
          exists other',
            clicked b other = Some other'
            /\ c_str (afns_result_buffer other')
               = c_str (afns_result_buffer st')
            /\ text_buffer other' = text_buffer st').
Proof.
  intros Hlen. rewrite clicked_show.
  pose proof (proj1 (Forall_forall _ _) sources_no_zero _
                (button_text_source b)) as Hz.
  pose proof (proj1 (Forall_forall _ _) sources_fit _
                (button_text_source b)) as Hfit.
  cbv beta in Hz, Hfit.
  assert (Hshow : forall s,
             String.length (afns_result_buffer s) = BUFFER_SIZE ->
             show (button_text b) s
             = Some (mkState
                       (button_text b ++ String zero
                          (drop (String.length (button_text b) + 1)
                                (afns_result_buffer s)))
                       (button_text b))).
  { intros s Hs. apply show_fits; [exact Hz | now rewrite Hs]. }
  eexists. split; [apply (Hshow st Hlen)|].
  cbn [afns_result_buffer text_buffer].
  split; [now apply c_str_terminated|]. split; [reflexivity|].
  assert (Hlen' :
            String.length
              (button_text b ++ String zero
                 (drop (String.length (button_text b) + 1)
                       (afns_result_buffer st))) = BUFFER_SIZE).
  { rewrite length_terminated; [exact Hlen | now rewrite Hlen]. }
  split; [exact Hlen'|]. split.
  - rewrite Hshow by exact Hlen'. cbn [afns_result_buffer].
    now rewrite drop_terminated.
  - intros other Ho. eexists. split; [apply (Hshow other Ho)|].
    cbn [afns_result_buffer text_buffer].
    rewrite !c_str_terminated by exact Hz. now split.
Qed.

Lemma click_overwrites_witness :
  String.length (afns_result_buffer startup) = BUFFER_SIZE
  /\ exists st',
       clicked demo_btn startup = Some st'
       /\ c_str (afns_result_buffer st') = button_text demo_btn
       /\ text_buffer st' = button_text demo_btn.
Proof.
  assert (H : String.length (afns_result_buffer startup) = BUFFER_SIZE)
    by (vm_compute; reflexivity).
  split; [exact H|].
  destruct (click_overwrites demo_btn startup H) as (st' & H1 & H2 & H3 & _).
  exists st'. repeat split; assumption.
Defined.

(** C10. Each of the seven [strcpy] calls into the 1024-byte array, one in
    each button callback and one in [main], copies a literal without NUL
    whose length with the terminating NUL is at most 1024, so the copy
    stays inside the array and the array keeps its size. *)
Theorem strcpy_within_bounds :
  Forall (fun src =>
            c_str src = src /\ String.length src + 1 <= BUFFER_SIZE)
         strcpy_sources
  /\ (forall b,
        clicked b = show (button_text b)
        /\ In (button_text b) strcpy_sources)
  /\ (main_setup = show main_initial_text startup
      /\ In main_initial_text strcpy_sources)
  /\ (forall dest src,
        String.length dest = BUFFER_SIZE ->
        In src strcpy_sources ->
        exists buf,
          strcpy dest src = Some buf
          /\ String.length buf = BUFFER_SIZE).
Proof.
  split; [|split; [|split]].
  - apply Forall_forall. intros src Hin. split.
    + apply c_str_id.
      exact (proj1 (Forall_forall _ _) sources_no_zero _ Hin).
    + exact (proj1 (Forall_forall _ _) sources_fit _ Hin).
  - intros b. split; [apply clicked_show | apply button_text_source].
  - split; [reflexivity | simpl; auto 10].
  - intros dest src Hlen Hin.
    pose proof (proj1 (Forall_forall _ _) sources_no_zero _ Hin) as Hz.
    pose proof (proj1 (Forall_forall _ _) sources_fit _ Hin) as Hfit.
    cbv beta in Hz, Hfit. rewrite <- Hlen in Hfit.
    eexists. split; [apply (strcpy_fits _ _ Hz Hfit)|].
    rewrite length_terminated; [exact Hlen | exact Hfit].
Qed.

Lemma strcpy_within_bounds_witness :
  String.length (zeros BUFFER_SIZE) = BUFFER_SIZE
  /\ In main_initial_text strcpy_sources
  /\ exists buf,
       strcpy (zeros BUFFER_SIZE) main_initial_text = Some buf
       /\ String.length buf = BUFFER_SIZE.
Proof.
  assert (H : String.length (zeros BUFFER_SIZE) = BUFFER_SIZE)
    by (vm_compute; reflexivity).
  assert (Hin : In main_initial_text strcpy_sources)
    by (simpl; auto 10).
  split; [exact H|]. split; [exact Hin|].
  exact (proj2 (proj2 (proj2 strcpy_within_bounds))
           (zeros BUFFER_SIZE) main_initial_text H Hin).
Defined.

(** ** Further properties of the substitution *)

Section ScanAlgebra.

Lemma prefix_nil (a : ascii) (p : string) :
  prefix (String a p) EmptyString = false.
Proof. reflexivity. Qed.

(** A text whose first byte is none of [u], [n] and the blank, put after
    [a], neither creates nor destroys an occurrence that begins in [a]. *)
Lemma prefix_joint (x c : ascii) (a b : string) :
  mentions c "un " = false ->
  prefix "fun " (String x a ++ String c b) = prefix "fun " (String x a).
Proof.
  intros H. cbn [mentions] in H.
  apply orb_false_elim in H as [Hu H].
  apply orb_false_elim in H as [Hn H].
  apply orb_false_elim in H as [Hb _].
  rewrite Ascii.eqb_sym in Hu, Hn, Hb.
  destruct a as [|c2 [|c3 [|c4 a]]]; cbn [append];
    rewrite ?prefix_cons, ?prefix_nil, ?prefix_empty, ?Hu, ?Hn, ?Hb,
      ?andb_false_r;
    reflexivity.
Qed.

Lemma occurrences_app (a b : string) (c : ascii) :
  mentions c "un " = false ->
  occurrences (a ++ String c b) = occurrences a + occurrences (String c b).
Proof.
  intros H. induction a as [|x a IH]; [reflexivity|].
  pose proof (prefix_joint x c a b H) as Q.
  change (String x a ++ String c b) with (String x (a ++ String c b))
    in Q |- *.
  remember (String c b) as t eqn:Et.
  cbn [occurrences]. rewrite Q, IH. lia.
Qed.

Lemma replace_from_app (n : nat) :
  forall a b c,
    String.length a < n ->
    mentions c "un " = false ->
    replace_from 0 (a ++ String c b)
    = replace_from 0 a ++ replace_from 0 (String c b).
Proof.
  induction n as [|n IH]; intros a b c Hn H; [lia|].
  destruct a as [|x a]; [reflexivity|].
  destruct (prefix "fun " (String x a)) eqn:P.
  - apply prefix_split in P. cbn [String.length] in P, Hn.
    remember (drop 4 (String x a)) as d eqn:Ed.
    assert (Hd : String.length d < n).
    { subst d. rewrite length_drop. cbn [String.length]. lia. }
    rewrite P, app_assoc, !replace_from_token, (IH d b c Hd H).
    now rewrite app_assoc.
  - pose proof (prefix_joint x c a b H) as Q. rewrite P in Q.
    change (String x a ++ String c b) with (String x (a ++ String c b))
      in Q |- *.
    cbn [replace_from]. rewrite P, Q.
    cbn [String.length] in Hn.
    rewrite (IH a b c) by (lia || exact H). reflexivity.
Qed.

Lemma replace_from_length (n : nat) :
  forall s,
    String.length s < n ->
    String.length (replace_from 0 s) = String.length s + 3 * occurrences s.
Proof.
  induction n as [|n IH]; intros s Hn; [lia|].
  destruct (find s "fun " 0) as [q|] eqn:F.
  - destruct (find_some_scan _ _ F) as (a & b & E & _ & -> & _ & ->).
    subst s. rewrite !length_app in *. cbn [String.length] in *.
    rewrite (IH b) by lia. lia.
  - destruct (find_none_scan _ F) as (-> & _ & ->). lia.
Qed.

Lemma replace_from_nonempty (s : string) :
  s <> EmptyString -> replace_from 0 s <> EmptyString.
Proof.
  intros H E.
  pose proof (replace_from_length (S (String.length s)) s (le_n _)) as L.
  rewrite E in L. destruct s; [congruence | simpl in L; lia].
Qed.

Lemma replace_from_no_zero (s : string) :
  forall k, mentions zero s = false -> mentions zero (replace_from k s) = false.
Proof.
  induction s as [|c s IH]; intros k H; [now destruct k|].
  cbn [mentions] in H. apply orb_false_elim in H as [Hc Hs].
  destruct k as [|k]; [|exact (IH k Hs)].
  cbn [replace_from].
  destruct (prefix "fun " (String c s)).
  - change (mentions zero ("Widget " ++ replace_from 3 s))
      with (mentions zero (replace_from 3 s)).
    exact (IH 3 Hs).
  - cbn [mentions]. now rewrite Hc, (IH 0 Hs).
Qed.

Lemma app_token_differ (a b : string) :
  a ++ "fun " ++ b <> a ++ "Widget " ++ b.
Proof.
  induction a as [|x a IH]; [discriminate|].
  intros E. injection E as E. exact (IH E).
Qed.

End ScanAlgebra.

(** X1. Running [ExecuteAFNSLogic] again on the text it returned returns
    that text once more and leaves the object as the first call left it:
    the substitution is idempotent. *)
Theorem execute_idempotent (code : string) (this : AFNSEngineExtension) :
  code <> EmptyString ->
  exists r this',
    ExecuteAFNSLogic code this = Some (r, this')
    /\ ExecuteAFNSLogic r this' = Some (r, this')
    /\ ProcessAFNSCode r = Some r.
Proof.
  intros H.
  assert (E : replace_all (replace_all code) = replace_all code).
  { apply replace_from_no_occurrence, occurrences_replace_from. }
  exists (replace_all code), (mkEngine ("EXECUTED: " ++ replace_all code)).
  split; [now apply ExecuteAFNSLogic_nonempty|]. split.
  - rewrite ExecuteAFNSLogic_nonempty by now apply replace_from_nonempty.
    now rewrite E.
  - now rewrite ProcessAFNSCode_scans, E.
Qed.

Lemma execute_idempotent_witness :
  "fun a fun b" <> EmptyString
  /\ exists r this',
       ExecuteAFNSLogic "fun a fun b" new_AFNSEngineExtension
       = Some (r, this')
       /\ ExecuteAFNSLogic r this' = Some (r, this')
       /\ ProcessAFNSCode r = Some r.
Proof.
  assert (H : "fun a fun b" <> EmptyString) by discriminate.
  split; [exact H|].
  exact (execute_idempotent "fun a fun b" new_AFNSEngineExtension H).
Defined.

(** X2. The output of [ProcessAFNSCode] is longer than its input by three
    bytes for each occurrence of the token; it is never shorter, and it is
    empty only for the empty input. *)
Theorem process_length (code : string) :
  exists out,
    ProcessAFNSCode code = Some out
    /\ String.length out = String.length code + 3 * occurrences code
    /\ (out = EmptyString <-> code = EmptyString).
Proof.
  exists (replace_all code).
  split; [apply ProcessAFNSCode_scans|]. split.
  - apply (replace_from_length (S (String.length code))). lia.
  - split.
    + intros E. destruct (string_dec code EmptyString) as [|N]; [assumption|].
      now destruct (replace_from_nonempty code N).
    + now intros ->.
Qed.

(** X3. [ProcessAFNSCode] works piecewise: when the text [b'] put after
    [a] begins with a byte other than [u], [n] and the blank (a line break,
    say, or the token itself), the output for [a ++ b'] is the output for
    [a] followed by the output for [b'], and the occurrences add up. *)
Theorem process_app (a b : string) (c : ascii) :
  mentions c "un " = false ->
  exists oa ob,
    ProcessAFNSCode a = Some oa
    /\ ProcessAFNSCode (String c b) = Some ob
    /\ ProcessAFNSCode (a ++ String c b) = Some (oa ++ ob)
    /\ occurrences (a ++ String c b)
       = occurrences a + occurrences (String c b).
Proof.
  intros H.
  exists (replace_all a), (replace_all (String c b)).
  rewrite !ProcessAFNSCode_scans. unfold replace_all.
  rewrite (replace_from_app (S (String.length a)) a b c (le_n _) H).
  repeat split. now apply occurrences_app.
Qed.

Lemma process_app_witness :
  mentions "010"%char "un " = false
  /\ ProcessAFNSCode ("fun a() {}" ++ String "010"%char "fun b() {}")
     = Some ("Widget a() {}" ++ String "010"%char "Widget b() {}").
Proof.
  assert (H : mentions "010"%char "un " = false) by reflexivity.
  split; [exact H|].
  destruct (process_app "fun a() {}" "fun b() {}" "010"%char H)
    as (oa & ob & Ha & Hb & Hab & _).
  rewrite Hab. injection Ha as <-. injection Hb as <-. reflexivity.
Defined.

(** X4. [ProcessAFNSCode] cannot be undone: a text holding the token at
    some place and the text holding ["Widget "] at that place are
    different inputs with the same output. *)
Theorem process_not_injective (a b : string) :
  a ++ "fun " ++ b <> a ++ "Widget " ++ b
  /\ exists out,
       ProcessAFNSCode (a ++ "fun " ++ b) = Some out
       /\ ProcessAFNSCode (a ++ "Widget " ++ b) = Some out.
Proof.
  split; [apply app_token_differ|].
  exists (replace_all a ++ "Widget " ++ replace_all b).
  rewrite !ProcessAFNSCode_scans. unfold replace_all.
  change ("fun " ++ b) with (String "f" ("un " ++ b)).
  change ("Widget " ++ b) with (String "W" ("idget " ++ b)).
  rewrite !(replace_from_app (S (String.length a)) a) by (lia || reflexivity).
  pose proof (replace_from_token b) as T.
  change ("fun " ++ b) with (String "f" ("un " ++ b)) in T.
  rewrite T. split; reflexivity.
Qed.

(** ** Sequences of member-function calls *)

Section SequenceFacts.

Lemma CompileAFNSWidget_reply (code : string) :
  exists r, forall this, CompileAFNSWidget code this = Some (r, this).
Proof.
  destruct (string_dec code EmptyString) as [->|Hne].
  - eexists. intros this. apply CompileAFNSWidget_empty.
  - eexists. intros this. now apply CompileAFNSWidget_nonempty.
Qed.

(** The effect of one call on the state. *)
Lemma invoke_state (c : MethodCall) (this : AFNSEngineExtension) :
  exists r,
    invoke c this
    = Some (r, mkEngine (match stored c with
                         | Some v => v
                         | None => internal_afns_state_ this
                         end)).
Proof.
  destruct this as [st].
  destruct c as [s|s|v|s|]; cbn [invoke stored internal_afns_state_];
    try (eexists; reflexivity).
  - destruct (CompileAFNSWidget_reply s) as [r H].
    exists (Some r). unfold bind. now rewrite H.
  - destruct s as [|a s]; [eexists; reflexivity|].
    cbn [empty]. unfold bind at 1.
    rewrite ExecuteAFNSLogic_nonempty by discriminate.
    eexists. reflexivity.
Qed.

Lemma invoke_all_state (cs : list MethodCall) :
  forall this,
    exists rs,
      invoke_all cs this
      = Some (rs, mkEngine (last_stored cs (internal_afns_state_ this))).
Proof.
  induction cs as [|c cs IH]; intros this.
  - destruct this. eexists. reflexivity.
  - destruct (invoke_state c this) as [r Hr].
    cbn [invoke_all last_stored]. unfold bind at 1. rewrite Hr.
    destruct (IH (mkEngine (match stored c with
                            | Some v => v
                            | None => internal_afns_state_ this
                            end))) as [rs Hrs].
    unfold bind at 1. rewrite Hrs. eexists. reflexivity.
Qed.

Lemma stored_ok (c : MethodCall) (v : string) :
  is_update c = false -> stored c = Some v -> engine_state_ok v.
Proof.
  destruct c as [s|s|x|s|]; try discriminate. intros _.
  cbn [stored]. destruct s as [|a s]; [discriminate|].
  cbn [empty]. intros E. injection E as <-.
  right. exists (replace_all (String a s)). split; [reflexivity|]. split.
  - now apply replace_from_nonempty.
  - apply occurrences_replace_from.
Qed.

Lemma last_stored_ok (cs : list MethodCall) :
  forall state,
    forallb (fun c => negb (is_update c)) cs = true ->
    engine_state_ok state ->
    engine_state_ok (last_stored cs state).
Proof.
  induction cs as [|c cs IH]; intros state Hcs Hok; [exact Hok|].
  cbn [forallb last_stored] in *.
  apply andb_true_iff in Hcs as [Hc Hcs].
  apply negb_true_iff in Hc.
  apply IH; [exact Hcs|].
  destruct (stored c) as [v|] eqn:E; [|exact Hok].
  exact (stored_ok c v Hc E).
Qed.

End SequenceFacts.

(** X5. [CompileAFNSWidget], [GetAFNSSState] and [InitializeAFNSEngine]
    leave the object as it is on every input, and the text
    [CompileAFNSWidget] returns does not depend on the object's state. *)
Theorem read_only_members (code : string) (vm_ref : DartVMRef) :
  (exists r, forall this, CompileAFNSWidget code this = Some (r, this))
  /\ (forall this,
        GetAFNSSState this = Some (internal_afns_state_ this, this))
  /\ (forall this, InitializeAFNSEngine vm_ref this = Some (tt, this)).
Proof.
  split; [apply CompileAFNSWidget_reply|]. now split.
Qed.

(** X6. After any sequence of member-function calls the state is the value
    stored by the last call that stores one: an [UpdateAFNSSState], or an
    [ExecuteAFNSLogic] on a non-empty input, which stores ["EXECUTED: "]
    followed by the substituted input.  Without such a call the state is
    the one before the sequence.  The sequence always runs to its end, and
    a [GetAFNSSState] after it returns that state. *)
Theorem state_is_last_stored (cs : list MethodCall)
        (this : AFNSEngineExtension) :
  exists rs,
    invoke_all cs this
    = Some (rs, mkEngine (last_stored cs (internal_afns_state_ this)))
    /\ invoke_all (cs ++ [CallGet])%list this
       = Some ((rs ++ [Some (last_stored cs (internal_afns_state_ this))])
                 %list,
               mkEngine (last_stored cs (internal_afns_state_ this))).
Proof.
  destruct (invoke_all_state cs this) as [rs H].
  exists rs. split; [exact H|].
  revert this rs H.
  induction cs as [|c cs IH]; intros this rs H.
  - destruct this. cbn in H. injection H as <-. reflexivity.
  - cbn [invoke_all app last_stored] in H |- *.
    destruct (invoke_state c this) as [r Hr].
    unfold bind at 1 in H. unfold bind at 1. rewrite Hr in H |- *.
    destruct (invoke_all_state cs
                (mkEngine (match stored c with
                           | Some v => v
                           | None => internal_afns_state_ this
                           end))) as [rs' Hrs'].
    unfold bind at 1 in H. rewrite Hrs' in H.
    cbn in H. injection H as <-.
    unfold bind at 1. rewrite (IH _ _ Hrs'). reflexivity.
Qed.

(** X7. As long as [UpdateAFNSSState] is not called, the state of an
    object is either the constructor's ["AFNS_ENGINE_ACTIVE"] or
    ["EXECUTED: "] followed by a non-empty text that holds no token. *)
Theorem state_invariant (cs : list MethodCall) :
  forallb (fun c => negb (is_update c)) cs = true ->
  exists rs this',
    invoke_all cs new_AFNSEngineExtension = Some (rs, this')
    /\ engine_state_ok (internal_afns_state_ this').
Proof.
  intros Hcs.
  destruct (invoke_all_state cs new_AFNSEngineExtension) as [rs H].
  eexists. eexists. split; [exact H|].
  cbn [internal_afns_state_].
  apply last_stored_ok; [exact Hcs | now left].
Qed.

Lemma state_invariant_witness :
  forallb (fun c => negb (is_update c))
          [CallExecute "fun a"; CallCompile "fun b"; CallExecute EmptyString;
           CallInitialize 0; CallGet] = true
  /\ exists rs this',
       invoke_all
         [CallExecute "fun a"; CallCompile "fun b"; CallExecute EmptyString;
          CallInitialize 0; CallGet] new_AFNSEngineExtension
       = Some (rs, this')
       /\ engine_state_ok (internal_afns_state_ this').
Proof.
  split; [reflexivity|].
  exact (state_invariant
           [CallExecute "fun a"; CallCompile "fun b"; CallExecute EmptyString;
            CallInitialize 0; CallGet] eq_refl).
Defined.

(** ** The engine holder and the entry points, continued *)

Section HolderFacts.

Lemma GetAFNSEngine_holder (w : Process) :
  holder_ok w ->
  g_afns_engine (snd (GetAFNSEngine w)) = Some new_AFNSEngineExtension.
Proof.
  unfold GetAFNSEngine. intros [H|H]; rewrite H; [reflexivity | exact H].
Qed.

Lemma call_holder (c : Call) (w : Process) :
  holder_ok w ->
  exists r w',
    call c w = Some (r, w')
    /\ holder_ok w'
    /\ match c with
       | OnLoad | LinuxInit | MacosInit | Dll DLL_PROCESS_ATTACH =>
           g_afns_engine w' = Some new_AFNSEngineExtension
       | Dll DLL_PROCESS_DETACH => g_afns_engine w' = None
       | _ => w' = w
       end.
Proof.
  intros H.
  destruct c as [s|s| | | |[| |]]; cbn [call].
  - destruct (nativeCompile_reply s) as [r Hr]. rewrite Hr.
    eexists. eexists. repeat split. exact H.
  - destruct (nativeExecute_reply s) as [r Hr]. rewrite Hr.
    eexists. eexists. repeat split. exact H.
  - eexists. eexists. split; [reflexivity|].
    pose proof (GetAFNSEngine_holder w H) as G. split; [now right | exact G].
  - eexists. eexists. split; [reflexivity|].
    pose proof (GetAFNSEngine_holder w H) as G. split; [now right | exact G].
  - eexists. eexists. split; [reflexivity|].
    pose proof (GetAFNSEngine_holder w H) as G. split; [now right | exact G].
  - eexists. eexists. split; [reflexivity|].
    pose proof (GetAFNSEngine_holder w H) as G. split; [now right | exact G].
  - eexists. eexists. split; [reflexivity|]. split; [now left | reflexivity].
  - eexists. eexists. split; [reflexivity|]. split; [exact H | reflexivity].
Qed.

Lemma calls_holder (cs : list Call) :
  forall w,
    holder_ok w ->
    exists rs w', calls cs w = Some (rs, w') /\ holder_ok w'.
Proof.
  induction cs as [|c cs IH]; intros w H; cbn [calls].
  - eexists. eexists. split; [reflexivity | exact H].
  - destruct (call_holder c w H) as (r & w1 & -> & H1 & _).
    destruct (IH w1 H1) as (rs & w2 & -> & H2).
    eexists. eexists. split; [reflexivity | exact H2].
Qed.

Lemma c_str_reply (literal s : string) :
  mentions zero literal = false ->
  mentions zero s = false ->
  c_str (literal ++ replace_all s) = literal ++ replace_all s.
Proof.
  intros Hl Hs. apply c_str_id.
  induction literal as [|a l IH].
  - now apply replace_from_no_zero.
  - cbn [mentions append] in Hl |- *.
    apply orb_false_elim in Hl as [Ha Hl]. now rewrite Ha, IH.
Qed.

End HolderFacts.

(** X8. [GetAFNSEngine] is a lazy singleton: after a call the holder owns
    the engine it returned, a further call returns the same engine and
    changes nothing, an engine already held is returned as it is, and a
    null holder gets a newly constructed engine. *)
Theorem GetAFNSEngine_singleton (w : Process) :
  exists e w',
    GetAFNSEngine w = (e, w')
    /\ g_afns_engine w' = Some e
    /\ GetAFNSEngine w' = (e, w')
    /\ (g_afns_engine w = None -> e = new_AFNSEngineExtension)
    /\ (forall e0, g_afns_engine w = Some e0 -> e = e0 /\ w' = w).
Proof.
  destruct w as [[e0|]]; unfold GetAFNSEngine; cbn [g_afns_engine].
  - exists e0, (mkProcess (Some e0)). repeat split; congruence.
  - exists new_AFNSEngineExtension,
      (mkProcess (Some new_AFNSEngineExtension)).
    repeat split; discriminate.
Qed.

(** X9. Whatever calls were made through the exported symbols since the
    library was loaded, the holder is null or owns an engine still in the
    constructor's state.  After [JNI_OnLoad], [afns_linux_init],
    [afns_macos_init] or [DllMain] with [DLL_PROCESS_ATTACH] it owns such
    an engine, after [DllMain] with [DLL_PROCESS_DETACH] it is null, and
    every other call leaves it as it is. *)
Theorem holder_lifecycle (cs : list Call) (c : Call) :
  exists rs w' r w'',
    calls cs loaded = Some (rs, w')
    /\ holder_ok w'
    /\ call c w' = Some (r, w'')
    /\ match c with
       | OnLoad | LinuxInit | MacosInit | Dll DLL_PROCESS_ATTACH =>
           g_afns_engine w'' = Some new_AFNSEngineExtension
       | Dll DLL_PROCESS_DETACH => g_afns_engine w'' = None
       | _ => w'' = w'
       end.
Proof.
  destruct (calls_holder cs loaded (or_introl eq_refl))
    as (rs & w' & E & H).
  destruct (call_holder c w' H) as (r & w'' & E' & _ & M).
  exists rs, w', r, w''. repeat split; assumption.
Qed.

(** X10. For an argument without NUL byte the entry points return what the
    member functions return: the error sentinel for the empty string,
    otherwise the substituted text, behind the fixed prefix for
    [nativeCompileAFNSWidget]; nothing is cut off by the conversions
    through C strings. *)
Theorem native_results (s : string) (w : Process) :
  mentions zero s = false ->
  Java_io_flutter_plugin_afns_AFNSEngine_nativeCompileAFNSWidget s w
  = Some (if empty s then "error: invalid_afns_code"
          else "Flutter Widget Generated from AFNS: " ++ replace_all s, w)
  /\ Java_io_flutter_plugin_afns_AFNSEngine_nativeExecuteAFNSLogic s w
     = Some (if empty s then "error: invalid_afns_logic"
             else replace_all s, w).
Proof.
  intros Hz.
  unfold Java_io_flutter_plugin_afns_AFNSEngine_nativeCompileAFNSWidget,
    Java_io_flutter_plugin_afns_AFNSEngine_nativeExecuteAFNSLogic.
  rewrite (c_str_id s Hz).
  destruct s as [|a s]; [split; reflexivity|].
  cbn [empty].
  rewrite CompileAFNSWidget_nonempty, ExecuteAFNSLogic_nonempty
    by discriminate.
  rewrite (c_str_reply "Flutter Widget Generated from AFNS: " _ eq_refl Hz).
  pose proof (c_str_reply EmptyString _ eq_refl Hz) as E.
  cbn [append] in E. rewrite E. split; reflexivity.
Qed.

Lemma native_results_witness :
  mentions zero "fun main" = false
  /\ Java_io_flutter_plugin_afns_AFNSEngine_nativeCompileAFNSWidget
       "fun main" loaded
     = Some ("Flutter Widget Generated from AFNS: Widget main", loaded).
Proof.
  assert (H : mentions zero "fun main" = false) by reflexivity.
  split; [exact H|].
  exact (proj1 (native_results "fun main" loaded H)).
Defined.

(** ** Sequences of clicks *)

Section ClickFacts.

Lemma last_cons {A : Type} (l : list A) (x d : A) :
  last (x :: l) d = last l x.
Proof.
  revert x d; induction l as [|y l IH]; intros x d; [reflexivity|].
  change (last (x :: y :: l) d) with (last (y :: l) d).
  now rewrite !IH.
Qed.

Lemma clicked_state (b : Button) (st : State) :
  String.length (afns_result_buffer st) = BUFFER_SIZE ->
  clicked b st
  = Some (mkState
            (button_text b ++ String zero
               (drop (String.length (button_text b) + 1)
                     (afns_result_buffer st)))
            (button_text b)).
Proof.
  intros Hlen. rewrite clicked_show.
  pose proof (proj1 (Forall_forall _ _) sources_no_zero _
                (button_text_source b)) as Hz.
  pose proof (proj1 (Forall_forall _ _) sources_fit _
                (button_text_source b)) as Hfit.
  cbv beta in Hz, Hfit.
  apply show_fits; [exact Hz | now rewrite Hlen].
Qed.

Lemma clicked_length (b : Button) (buf : string) :
  String.length buf = BUFFER_SIZE ->
  String.length
    (button_text b ++ String zero
       (drop (String.length (button_text b) + 1) buf)) = BUFFER_SIZE.
Proof.
  intros Hlen.
  pose proof (proj1 (Forall_forall _ _) sources_fit _
                (button_text_source b)) as Hfit.
  cbv beta in Hfit.
  rewrite length_terminated; [exact Hlen | now rewrite Hlen].
Qed.

Lemma clicks_state (bs : list Button) :
  forall st,
    String.length (afns_result_buffer st) = BUFFER_SIZE ->
    exists st',
      clicks bs st = Some st'
      /\ String.length (afns_result_buffer st') = BUFFER_SIZE
      /\ text_buffer st' = last (map button_text bs) (text_buffer st)
      /\ c_str (afns_result_buffer st')
         = last (map button_text bs) (c_str (afns_result_buffer st)).
Proof.
  induction bs as [|b bs IH]; intros st Hlen.
  - exists st. now repeat split.
  - cbn [clicks map]. rewrite (clicked_state b st Hlen).
    destruct (IH (mkState
                    (button_text b ++ String zero
                       (drop (String.length (button_text b) + 1)
                             (afns_result_buffer st)))
                    (button_text b)))
      as (st' & E & L & T & C).
    { now apply clicked_length. }
    cbn [afns_result_buffer text_buffer] in T, C.
    rewrite c_str_terminated in C
      by exact (proj1 (Forall_forall _ _) sources_no_zero _
                  (button_text_source b)).
    exists st'. rewrite !last_cons. now repeat split.
Qed.

Lemma take_terminated (s rest : string) :
  take (String.length s + 1) (s ++ String zero rest)
  = s ++ String zero EmptyString.
Proof.
  induction s as [|c s IH]; cbn [String.length Nat.add append take].
  - now destruct rest.
  - now rewrite IH.
Qed.

End ClickFacts.

(** X11. From the state [main] sets up, any sequence of clicks runs without
    a write outside the array, the array keeps its 1024 bytes, and the
    text shown, which is also the C string in the array, is the literal of
    the button clicked last, or the initial text when no button was
    clicked. *)
Theorem clicks_show_last (bs : list Button) :
  exists st0 st',
    main_setup = Some st0
    /\ clicks bs st0 = Some st'
    /\ String.length (afns_result_buffer st') = BUFFER_SIZE
    /\ text_buffer st' = last (map button_text bs) main_initial_text
    /\ c_str (afns_result_buffer st') = text_buffer st'.
Proof.
  assert (Hz : mentions zero main_initial_text = false) by reflexivity.
  assert (Hfit : String.length main_initial_text + 1
                 <= String.length (afns_result_buffer startup)).
  { apply Nat.leb_le. vm_compute. reflexivity. }
  pose proof (show_fits main_initial_text startup Hz Hfit) as E0.
  fold main_setup in E0.
  set (st0 := mkState
                (main_initial_text ++ String zero
                   (drop (String.length main_initial_text + 1)
                         (afns_result_buffer startup)))
                main_initial_text) in E0.
  assert (L0 : String.length (afns_result_buffer st0) = BUFFER_SIZE).
  { exact (eq_trans (length_terminated _ _ Hfit)
                    (length_zeros BUFFER_SIZE)). }
  destruct (clicks_state bs st0 L0) as (st' & E & L & T & C).
  exists st0, st'. split; [exact E0|].
  unfold st0 in T, C. cbn [afns_result_buffer text_buffer] in T, C.
  rewrite c_str_terminated in C by exact Hz.
  repeat split; try assumption. now rewrite C, T.
Qed.

(** X12. A click does not clear the array: the bytes after the terminating
    NUL of the copied literal are the bytes the array held there before. *)
Theorem click_keeps_tail (b : Button) (st : State) :
  String.length (afns_result_buffer st) = BUFFER_SIZE ->
  exists st',
    clicked b st = Some st'
    /\ drop (String.length (button_text b) + 1) (afns_result_buffer st')
       = drop (String.length (button_text b) + 1) (afns_result_buffer st)
    /\ take (String.length (button_text b) + 1) (afns_result_buffer st')
       = button_text b ++ String zero EmptyString.
Proof.
  intros Hlen. rewrite (clicked_state b st Hlen).
  eexists. split; [reflexivity|]. cbn [afns_result_buffer].
  split; [apply drop_terminated | apply take_terminated].
Qed.

Lemma click_keeps_tail_witness :
  String.length
    (afns_result_buffer
       (mkState (afns_run_demo_text ++ zeros 780) afns_run_demo_text))
  = BUFFER_SIZE
  /\ exists st',
       clicked button_btn
         (mkState (afns_run_demo_text ++ zeros 780) afns_run_demo_text)
       = Some st'
       /\ drop (String.length (button_text button_btn) + 1)
               (afns_result_buffer st')
          = drop (String.length (button_text button_btn) + 1)
                 (afns_run_demo_text ++ zeros 780).
Proof.
  assert (H : String.length
                (afns_result_buffer
                   (mkState (afns_run_demo_text ++ zeros 780)
                            afns_run_demo_text))
              = BUFFER_SIZE) by (vm_compute; reflexivity).
  split; [exact H|].
  destruct (click_keeps_tail button_btn _ H) as (st' & E & D & _).
  exists st'. split; [exact E | exact D].
Defined.
